(** * Mergington High School activities API

    A shallow embedding of [src/app.py]: the in-memory activity database,
    the three route handlers it defines ([root], [get_activities],
    [signup_for_activity]) and the unregister route that
    [tests/test_app.py] exercises, followed by the properties of the
    specification that hold of them.

    The module-level dict [activities] is the only mutable state.  Handlers
    are computations in a state-and-exception monad over it: a raised
    [HTTPException] leaves the store as it was when the [raise] ran. *)

From Stdlib Require Import ZArith.
From stdpp Require Import gmap strings list fin_maps.

Local Open Scope Z_scope.

(** ** Data model *)

(** One value of the [activities] dict: a dict with the three keys
    ["description"], ["schedule"] and ["participants"]. *)
Record Activity := {
  description : string;
  schedule : string;
  participants : list string
}.

(** [activity["participants"] = l], the other two keys untouched. *)
Definition set_participants (activity : Activity) (l : list string) : Activity :=
  {| description := description activity;
     schedule := schedule activity;
     participants := l |}.

(** [fastapi.HTTPException(status_code=..., detail=...)]. *)
Record HTTPException := {
  status_code : Z;
  detail : string
}.

(** ** The handler monad *)

(** A handler reads and writes the store and either returns or raises. *)
Definition handler (A : Type) : Type :=
  gmap string Activity → (HTTPException + A) * gmap string Activity.

#[global] Instance handler_ret : MRet handler :=
  λ A (x : A) store, (inr x, store).

#[global] Instance handler_bind : MBind handler :=
  λ A B (k : A → handler B) (m : handler A) store,
    match m store with
    | (inl e, store') => (inl e, store')
    | (inr x, store') => k x store'
    end.

Definition raise {A : Type} (e : HTTPException) : handler A :=
  λ store, (inl e, store).

Definition get_store : handler (gmap string Activity) :=
  λ store, (inr store, store).

Definition put_store (store' : gmap string Activity) : handler unit :=
  λ _, (inr tt, store').

(** ** The in-memory activity database (app.py, lines 23-74) *)

Definition new_activity (d s : string) : Activity :=
  {| description := d; schedule := s; participants := [] |}.

Definition activities : gmap string Activity :=
  list_to_map [
    ("Basketball",
      new_activity "Learn basketball skills and join our competitive team"
                   "Monday & Wednesday, 3:30 PM");
    ("Soccer",
      new_activity "Play soccer and develop teamwork skills"
                   "Tuesday & Thursday, 3:30 PM");
    ("Tennis",
      new_activity "Master tennis techniques and compete in tournaments"
                   "Monday & Friday, 4:00 PM");
    ("Volleyball",
      new_activity "Join our volleyball team and improve your athletic abilities"
                   "Wednesday & Saturday, 3:00 PM");
    ("Painting",
      new_activity "Explore painting techniques and create beautiful artworks"
                   "Tuesday & Thursday, 4:00 PM");
    ("Theater",
      new_activity "Perform in school plays and develop acting skills"
                   "Monday, Wednesday & Friday, 4:30 PM");
    ("Photography",
      new_activity "Learn photography and capture the world through your lens"
                   "Saturday, 2:00 PM");
    ("Debate Club",
      new_activity "Develop public speaking and argumentation skills"
                   "Tuesday & Thursday, 3:45 PM");
    ("Science Club",
      new_activity "Conduct experiments and explore scientific concepts"
                   "Wednesday, 4:00 PM");
    ("Chess Club",
      new_activity "Master chess strategy and compete with other players"
                   "Saturday, 1:00 PM")
  ].

(** The keys of the dict literal, in the order they are written. *)
Definition seeded_names : list string :=
  [ "Basketball"; "Soccer"; "Tennis"; "Volleyball"; "Painting"; "Theater";
    "Photography"; "Debate Club"; "Science Club"; "Chess Club" ].

(** ** Return values of the handlers *)

(** [RedirectResponse(url=...)]: the handler passes only [url]; the status
    is the default of the response class, 307 Temporary Redirect, which
    tests/test_app.py line 205 asserts. *)
Record Redirect := {
  url : string;
  redirect_status : Z
}.

Definition RedirectResponse (u : string) : Redirect :=
  {| url := u; redirect_status := 307 |}.

(** The dict [{"message": ...}]. *)
Record MessageDict := { message : string }.

(** ** Handlers *)

(** app.py, lines 77-79. *)
Definition root : handler Redirect :=
  mret (RedirectResponse "/static/index.html").

(** app.py, lines 82-84: the handler returns the dict itself. *)
Definition get_activities : handler (gmap string Activity) :=
  get_store.

(** app.py, lines 87-103.  The [append] mutates the list held by the dict
    entry, so the store afterwards maps [activity_name] to the same record
    with the longer list. *)
Definition signup_for_activity (activity_name email : string) : handler MessageDict :=
  store ← get_store;
  match store !! activity_name with
  | None =>
      raise {| status_code := 404; detail := "Activity not found" |}
  | Some activity =>
      if bool_decide (email ∈ participants activity) then
        raise {| status_code := 400;
                 detail := "Student already signed up for this activity" |}
      else
        put_store (<[activity_name :=
                      set_participants activity (participants activity ++ [email])]> store);;
        mret {| message := "Signed up " +:+ email +:+ " for " +:+ activity_name |}
  end.

(** Modelled from the spec: the removal that the absent unregister handler
    performs, "removes exactly one occurrence of email"; as [l.remove(x)]
    does, the first element equal to [x] is the one dropped. *)
Fixpoint remove_first (x : string) (l : list string) : list string :=
  match l with
  | [] => []
  | y :: l' => if bool_decide (y = x) then l' else y :: remove_first x l'
  end.

(** Modelled from the spec: app.py defines no handler for
    [POST /activities/{activity_name}/unregister]; only the tests
    (tests/test_app.py, class TestUnregister) call it.  Following the
    spec's section 4.1: the preconditions are checked in order, (a) the
    activity exists, else NotFound (404, "Activity not found"), (b) the
    email is in the participant list, else Conflict (400, a detail saying
    the student is "not signed up"); the effect removes one occurrence of
    the email (the first, as [list.remove] does); the result is a message
    "Unregistered {email} ..." that names the activity. *)
Definition unregister_from_activity (activity_name email : string) : handler MessageDict :=
  store ← get_store;
  match store !! activity_name with
  | None =>
      raise {| status_code := 404; detail := "Activity not found" |}
  | Some activity =>
      if bool_decide (email ∈ participants activity) then
        put_store (<[activity_name :=
                      set_participants activity
                        (remove_first email (participants activity))]> store);;
        mret {| message := "Unregistered " +:+ email +:+ " from " +:+ activity_name |}
      else
        raise {| status_code := 400;
                 detail := "Student is not signed up for this activity" |}
  end.

(** ** Serving requests *)

Inductive Request :=
  | GET_root
  | GET_activities
  | POST_signup (activity_name email : string)
  | POST_unregister (activity_name email : string).

Inductive Body :=
  | Location (target : string)
  | ActivitiesJSON (data : gmap string Activity)
  | MessageJSON (text : string)
  | DetailJSON (text : string).

Record Response := {
  status : Z;
  body : Body
}.

(** What the framework sends back: a returned value becomes a 200 response
    (a response object keeps its own status), a raised [HTTPException]
    becomes a response with its status code and [{"detail": ...}]. *)
Definition respond {A : Type} (ok : A → Response) (m : handler A)
    (store : gmap string Activity) : Response * gmap string Activity :=
  match m store with
  | (inl e, store') =>
      ({| status := status_code e; body := DetailJSON (detail e) |}, store')
  | (inr x, store') => (ok x, store')
  end.

Definition dispatch (r : Request) : gmap string Activity → Response * gmap string Activity :=
  match r with
  | GET_root =>
      respond (λ x, {| status := redirect_status x; body := Location (url x) |}) root
  | GET_activities =>
      respond (λ d, {| status := 200; body := ActivitiesJSON d |}) get_activities
  | POST_signup activity_name email =>
      respond (λ x, {| status := 200; body := MessageJSON (message x) |})
              (signup_for_activity activity_name email)
  | POST_unregister activity_name email =>
      respond (λ x, {| status := 200; body := MessageJSON (message x) |})
              (unregister_from_activity activity_name email)
  end.

(** The two error responses of the spec. *)
Definition NotFound : Response :=
  {| status := 404; body := DetailJSON "Activity not found" |}.

Definition signup_Conflict : Response :=
  {| status := 400; body := DetailJSON "Student already signed up for this activity" |}.

Definition unregister_Conflict : Response :=
  {| status := 400; body := DetailJSON "Student is not signed up for this activity" |}.

(** States of the store the process can be in: the seeded dict, and
    whatever any request leaves behind. *)
Inductive reachable : gmap string Activity → Prop :=
  | reachable_start : reachable activities
  | reachable_request (r : Request) (store : gmap string Activity) :
      reachable store → reachable (dispatch r store).2.

(** [s] occurs in [t] (Python's [s in t] on strings). *)
Definition occurs_in (s t : string) : Prop :=
  ∃ pre post, t = pre +:+ s +:+ post.

(** Every participant list of the store is duplicate-free. *)
Definition no_duplicates (store : gmap string Activity) : Prop :=
  ∀ name activity, store !! name = Some activity → NoDup (participants activity).

(** Serving a list of requests one after the other, collecting the
    responses. *)
Definition run (rs : list Request) (store : gmap string Activity)
    : list Response * gmap string Activity :=
  foldl (λ acc r, let '(out, st) := acc in
                  let '(resp, st') := dispatch r st in (out ++ [resp], st'))
        ([], store) rs.

(** The offerings of a store: its keys with their descriptions and
    schedules, participant lists left out. *)
Definition offering (store : gmap string Activity) (name : string) : option (string * string) :=
  (λ activity, (description activity, schedule activity)) <$> store !! name.

(** The three cases both mutating handlers distinguish: unknown activity,
    email in the list, email not in the list. *)
Variant lookup_case (store : gmap string Activity) (activity_name email : string) : Type :=
  | case_unknown : store !! activity_name = None → lookup_case store activity_name email
  | case_member (activity : Activity) :
      store !! activity_name = Some activity → email ∈ participants activity →
      lookup_case store activity_name email
  | case_fresh (activity : Activity) :
      store !! activity_name = Some activity → email ∉ participants activity →
      lookup_case store activity_name email.

(** The store after [a@x.edu] has signed up for Basketball, the first step
    of the scenario in the spec's section 8. *)
Definition after_signup : gmap string Activity :=
  (dispatch (POST_signup "Basketball" "a@x.edu") activities).2.

Definition Basketball_seed : Activity :=
  new_activity "Learn basketball skills and join our competitive team"
               "Monday & Wednesday, 3:30 PM".


(** ** The test fixture and the routes of app.py *)

(** tests/test_app.py, lines 16-25, fixture [reset_activities]: the loop
    [for activity in activities.values(): activity["participants"] = []],
    run before and after every test. *)
Definition reset_activities (store : gmap string Activity) : gmap string Activity :=
  (λ activity, set_participants activity []) <$> store.

(** The routes app.py itself defines: [/], [/activities] and
    [/activities/{activity_name}/signup]. *)
Definition app_route (r : Request) : bool :=
  match r with
  | GET_root | GET_activities | POST_signup _ _ => true
  | POST_unregister _ _ => false
  end.

(** The two GET routes. *)
Definition is_GET (r : Request) : bool :=
  match r with
  | GET_root | GET_activities => true
  | POST_signup _ _ | POST_unregister _ _ => false
  end.

(** The answer to a signup that went through. *)
Definition signed_up (activity_name email : string) : Response :=
  {| status := 200;
     body := MessageJSON ("Signed up " +:+ email +:+ " for " +:+ activity_name) |}.

(** How many of the requests [rs], answered by [resps] in the same order,
    are signups for [activity_name] that were answered with 200. *)
Fixpoint accepted_signups (activity_name : string) (rs : list Request)
    (resps : list Response) : nat :=
  match rs, resps with
  | POST_signup name _ :: rs', resp :: resps' =>
      if bool_decide (name = activity_name ∧ status resp = 200)
      then S (accepted_signups activity_name rs' resps')
      else accepted_signups activity_name rs' resps'
  | _ :: rs', _ :: resps' => accepted_signups activity_name rs' resps'
  | _, _ => 0%nat
  end.


(** * Properties *)

(** ** Strings *)

Lemma append_nil_r (s : string) : s +:+ "" = s.
Proof.
  induction s as [|c s IH]; [done |].
  change (String c (s +:+ "") = String c s). by rewrite IH.
Qed.

Lemma append_assoc (s t u : string) : (s +:+ t) +:+ u = s +:+ t +:+ u.
Proof.
  induction s as [|c s IH]; [done |].
  change (String c ((s +:+ t) +:+ u) = String c (s +:+ t +:+ u)). by rewrite IH.
Qed.

Lemma occurs_in_prefix (s t : string) : occurs_in s (s +:+ t).
Proof. by exists "", t. Qed.

Lemma occurs_in_suffix (s t : string) : occurs_in t (s +:+ t).
Proof. exists s, "". by rewrite append_nil_r. Qed.

Lemma occurs_in_append_r (s t u : string) : occurs_in s u → occurs_in s (t +:+ u).
Proof.
  intros (pre & post & ->). exists (t +:+ pre), post.
  by rewrite append_assoc.
Qed.

(** ** Lists *)

Lemma remove_first_split (x : string) (l : list string) :
  x ∈ l → ∃ l1 l2, l = l1 ++ (x :: l2) ∧ (x ∉ l1) ∧ remove_first x l = l1 ++ l2.
Proof.
  induction l as [|y l IH]; intros Hin.
  - by apply elem_of_nil in Hin.
  - simpl. case_bool_decide as Hy.
    + subst y. exists [], l. split_and!; [done | apply not_elem_of_nil | done].
    + apply elem_of_cons in Hin as [-> | Hin]; [done |].
      destruct (IH Hin) as (l1 & l2 & -> & Hl1 & ->).
      exists (y :: l1), l2. split_and!; [done | | done].
      rewrite not_elem_of_cons. split; [congruence | done].
Qed.

Lemma remove_first_sublist (x : string) (l : list string) :
  remove_first x l `sublist_of` l.
Proof.
  induction l as [|y l IH]; simpl; [done |].
  case_bool_decide; [by apply sublist_cons | by apply sublist_skip].
Qed.

Lemma remove_first_NoDup (x : string) (l : list string) :
  NoDup l → NoDup (remove_first x l).
Proof. intros Hl. eapply sublist_NoDup; [done | apply remove_first_sublist]. Qed.

Lemma remove_first_snoc (x : string) (l : list string) :
  x ∉ l → remove_first x (l ++ [x]) = l.
Proof.
  induction l as [|y l IH]; simpl; intros Hx.
  - by rewrite bool_decide_eq_true_2.
  - apply not_elem_of_cons in Hx as [Hne Hx].
    rewrite bool_decide_eq_false_2 by congruence. by rewrite IH.
Qed.

Lemma NoDup_snoc_fresh (x : string) (l : list string) :
  NoDup l → x ∉ l → NoDup (l ++ [x]).
Proof.
  intros Hl Hx. apply NoDup_app. split_and!; [done | | apply NoDup_singleton].
  intros y Hy ->%list_elem_of_singleton. done.
Qed.

(** ** The handlers, case by case *)

Section handlers.
Variables (store : gmap string Activity) (activity_name email : string).

Lemma signup_unknown :
  store !! activity_name = None →
  signup_for_activity activity_name email store
  = (inl {| status_code := 404; detail := "Activity not found" |}, store).
Proof.
  intros Hnone. unfold signup_for_activity, mbind, handler_bind, get_store.
  by rewrite Hnone.
Qed.

Lemma signup_duplicate (activity : Activity) :
  store !! activity_name = Some activity →
  email ∈ participants activity →
  signup_for_activity activity_name email store
  = (inl {| status_code := 400;
            detail := "Student already signed up for this activity" |}, store).
Proof.
  intros Hsome Hin. unfold signup_for_activity, mbind, handler_bind, get_store.
  rewrite Hsome. by rewrite bool_decide_eq_true_2.
Qed.

Lemma signup_fresh (activity : Activity) :
  store !! activity_name = Some activity →
  email ∉ participants activity →
  signup_for_activity activity_name email store
  = (inr {| message := "Signed up " +:+ email +:+ " for " +:+ activity_name |},
     <[activity_name :=
         set_participants activity (participants activity ++ [email])]> store).
Proof.
  intros Hsome Hin. unfold signup_for_activity, mbind, handler_bind, get_store.
  rewrite Hsome. by rewrite bool_decide_eq_false_2.
Qed.

Lemma unregister_unknown :
  store !! activity_name = None →
  unregister_from_activity activity_name email store
  = (inl {| status_code := 404; detail := "Activity not found" |}, store).
Proof.
  intros Hnone. unfold unregister_from_activity, mbind, handler_bind, get_store.
  by rewrite Hnone.
Qed.

Lemma unregister_absent (activity : Activity) :
  store !! activity_name = Some activity →
  email ∉ participants activity →
  unregister_from_activity activity_name email store
  = (inl {| status_code := 400;
            detail := "Student is not signed up for this activity" |}, store).
Proof.
  intros Hsome Hin. unfold unregister_from_activity, mbind, handler_bind, get_store.
  rewrite Hsome. by rewrite bool_decide_eq_false_2.
Qed.

Lemma unregister_present (activity : Activity) :
  store !! activity_name = Some activity →
  email ∈ participants activity →
  unregister_from_activity activity_name email store
  = (inr {| message := "Unregistered " +:+ email +:+ " from " +:+ activity_name |},
     <[activity_name :=
         set_participants activity
           (remove_first email (participants activity))]> store).
Proof.
  intros Hsome Hin. unfold unregister_from_activity, mbind, handler_bind, get_store.
  rewrite Hsome. by rewrite bool_decide_eq_true_2.
Qed.
End handlers.

(** Which case applies is decided by the store alone. *)
Lemma lookup_cases (store : gmap string Activity) (activity_name email : string) :
  lookup_case store activity_name email.
Proof.
  destruct (store !! activity_name) as [activity|] eqn:Hlook.
  - destruct (decide (email ∈ participants activity)).
    + by eapply case_member.
    + by eapply case_fresh.
  - by apply case_unknown.
Qed.

(** ** What a request can do to the store *)

(** A request leaves the store alone or replaces the participant list of
    one existing activity, never introducing a duplicate. *)
Lemma dispatch_store (r : Request) (store : gmap string Activity) :
  (dispatch r store).2 = store ∨
  ∃ name activity l,
    store !! name = Some activity ∧
    (dispatch r store).2 = <[name := set_participants activity l]> store ∧
    (NoDup (participants activity) → NoDup l).
Proof.
  destruct r as [| |name email|name email]; simpl; unfold respond.
  - by left.
  - by left.
  - destruct (lookup_cases store name email) as [Hn|a Hs Hin|a Hs Hout].
    + rewrite signup_unknown by done. by left.
    + rewrite (signup_duplicate _ _ _ a) by done. by left.
    + rewrite (signup_fresh _ _ _ a) by done. right.
      exists name, a, (participants a ++ [email]). split_and!; [done..|].
      intros Hnd. by apply NoDup_snoc_fresh.
  - destruct (lookup_cases store name email) as [Hn|a Hs Hin|a Hs Hout].
    + rewrite unregister_unknown by done. by left.
    + rewrite (unregister_present _ _ _ a) by done. right.
      exists name, a, (remove_first email (participants a)). split_and!; [done..|].
      apply remove_first_NoDup.
    + rewrite (unregister_absent _ _ _ a) by done. by left.
Qed.

Lemma dispatch_offering (r : Request) (store : gmap string Activity) (name : string) :
  offering (dispatch r store).2 name = offering store name.
Proof.
  destruct (dispatch_store r store) as [-> | (name' & a & l & Hs & -> & _)]; [done |].
  unfold offering. destruct (decide (name' = name)) as [-> | Hne].
  - by rewrite lookup_insert_eq, Hs.
  - by rewrite lookup_insert_ne.
Qed.

Lemma reachable_offering (store : gmap string Activity) (name : string) :
  reachable store → offering store name = offering activities name.
Proof.
  induction 1 as [|r store _ IH]; [done |]. by rewrite dispatch_offering.
Qed.

Lemma reachable_lookup_None (store : gmap string Activity) (name : string) :
  reachable store → store !! name = None ↔ activities !! name = None.
Proof.
  intros Hr. pose proof (reachable_offering store name Hr) as Ho.
  unfold offering in Ho.
  destruct (store !! name), (activities !! name); naive_solver.
Qed.

Lemma reachable_dom (store : gmap string Activity) :
  reachable store → dom store = dom activities.
Proof.
  intros Hr. apply set_eq. intros name.
  rewrite !elem_of_dom, <-!not_eq_None_Some.
  by rewrite reachable_lookup_None.
Qed.

Lemma dispatch_no_duplicates (r : Request) (store : gmap string Activity) :
  no_duplicates store → no_duplicates (dispatch r store).2.
Proof.
  intros Hinv.
  destruct (dispatch_store r store) as [-> | (name & a & l & Hs & -> & Hl)]; [done |].
  intros name' a' Hlook. destruct (decide (name = name')) as [<- | Hne].
  - rewrite lookup_insert_eq in Hlook. injection Hlook as <-. simpl.
    apply Hl. by eapply Hinv.
  - rewrite lookup_insert_ne in Hlook by done. by eapply Hinv.
Qed.

Lemma activities_no_duplicates : no_duplicates activities.
Proof.
  intros name a Hlook.
  assert (participants <$> activities !! name = Some (participants a)) as Hp
    by (by rewrite Hlook).
  assert (∀ o : option Activity,
            o = activities !! name → participants <$> o = Some [] ∨ o = None) as Hseed.
  { intros o ->. unfold activities. simpl.
    repeat (rewrite lookup_insert; case_decide; [by left |]).
    right. apply lookup_empty. }
  destruct (Hseed _ eq_refl) as [He | He].
  - rewrite He in Hp. injection Hp as <-. apply NoDup_nil_2.
  - by rewrite Hlook in He.
Qed.

(** ** The seeded database *)

Lemma size_activities : size activities = 10%nat.
Proof. reflexivity. Qed.

Lemma dom_activities : dom activities = list_to_set seeded_names.
Proof. reflexivity. Qed.

Lemma NoDup_seeded_names : NoDup seeded_names.
Proof. by apply (bool_decide_unpack (NoDup seeded_names)). Qed.

Lemma NoSuchClub_not_seeded : activities !! "NoSuchClub" = None.
Proof. reflexivity. Qed.

Lemma after_signup_reachable : reachable after_signup.
Proof. apply reachable_request, reachable_start. Defined.

Lemma after_signup_Basketball :
  after_signup !! "Basketball" = Some (set_participants Basketball_seed ["a@x.edu"]).
Proof. reflexivity. Defined.

(** ** Signing up *)

(** C2: for an activity of the registry and an email not in its participant
    list, signup answers 200 with the message "Signed up {email} for
    {activity_name}" and replaces the list by the old list followed by the
    email: the email is then the last element and occurs exactly once, the
    earlier participants keep their places, and nothing else changes. *)
Theorem signup_appends (store : gmap string Activity) (activity_name email : string)
    (activity : Activity) :
  store !! activity_name = Some activity →
  email ∉ participants activity →
  ∃ activity',
    dispatch (POST_signup activity_name email) store
    = ({| status := 200;
          body := MessageJSON ("Signed up " +:+ email +:+ " for " +:+ activity_name) |},
       <[activity_name := activity']> store) ∧
    participants activity' = participants activity ++ [email] ∧
    last (participants activity') = Some email ∧
    count_occ String.eq_dec (participants activity') email = 1%nat ∧
    description activity' = description activity ∧
    schedule activity' = schedule activity.
Proof.
  intros Hs Hout.
  exists (set_participants activity (participants activity ++ [email])).
  split_and!; try done.
  - simpl. unfold respond. by rewrite (signup_fresh _ _ _ activity).
  - simpl. apply last_snoc.
  - simpl. rewrite count_occ_app.
    assert (count_occ String.eq_dec (participants activity) email = 0%nat) as ->.
    { apply count_occ_not_In. by rewrite <-list_elem_of_In. }
    simpl. by destruct (String.eq_dec email email).
Qed.

Lemma signup_appends_witness :
  activities !! "Basketball" = Some Basketball_seed ∧
  ("a@x.edu" ∉ participants Basketball_seed) ∧
  ∃ activity',
    dispatch (POST_signup "Basketball" "a@x.edu") activities
    = ({| status := 200;
          body := MessageJSON ("Signed up " +:+ "a@x.edu" +:+ " for " +:+ "Basketball") |},
       <["Basketball" := activity']> activities) ∧
    participants activity' = participants Basketball_seed ++ ["a@x.edu"] ∧
    last (participants activity') = Some "a@x.edu" ∧
    count_occ String.eq_dec (participants activity') "a@x.edu" = 1%nat ∧
    description activity' = description Basketball_seed ∧
    schedule activity' = schedule Basketball_seed.
Proof.
  assert (activities !! "Basketball" = Some Basketball_seed) as Hs by reflexivity.
  assert ("a@x.edu" ∉ participants Basketball_seed) as Hout by apply not_elem_of_nil.
  split; [exact Hs |]. split; [exact Hout |].
  exact (signup_appends activities "Basketball" "a@x.edu" Basketball_seed Hs Hout).
Defined.

(** C3: signup fails exactly when a precondition is violated, the checks
    taken in order: the answer is NotFound (404, "Activity not found")
    exactly when the name is not a key of the registry, whatever the email;
    it is Conflict (400, "Student already signed up for this activity")
    exactly when the name is a key and the email is in that activity's
    list; there is no other failure; and after a signup that succeeded the
    same request again is answered with Conflict. *)
Theorem signup_fails_iff (store : gmap string Activity) (activity_name email : string) :
  ((dispatch (POST_signup activity_name email) store).1 = NotFound
   ↔ store !! activity_name = None) ∧
  ((dispatch (POST_signup activity_name email) store).1 = signup_Conflict
   ↔ ∃ activity, store !! activity_name = Some activity ∧ email ∈ participants activity) ∧
  (status (dispatch (POST_signup activity_name email) store).1 ≠ 200
   ↔ (dispatch (POST_signup activity_name email) store).1 = NotFound
     ∨ (dispatch (POST_signup activity_name email) store).1 = signup_Conflict) ∧
  (status (dispatch (POST_signup activity_name email) store).1 = 200 →
   (dispatch (POST_signup activity_name email)
             (dispatch (POST_signup activity_name email) store).2).1 = signup_Conflict).
Proof.
  simpl. unfold respond.
  destruct (lookup_cases store activity_name email) as [Hn|a Hs Hin|a Hs Hout].
  - rewrite signup_unknown by done. simpl. split_and!.
    + done.
    + split; [done |]. intros (a & Ha & _). congruence.
    + split; [by left | done].
    + done.
  - rewrite (signup_duplicate _ _ _ a) by done. simpl. split_and!.
    + split; [done | congruence].
    + split; [by exists a | done].
    + split; [by right | done].
    + done.
  - rewrite (signup_fresh _ _ _ a) by done. simpl. split_and!.
    + split; [done | congruence].
    + split; [done |]. intros (a' & Ha' & Hin). congruence.
    + split; [done |]. by intros [? | ?].
    + intros _.
      rewrite (signup_duplicate _ _ _
                 (set_participants a (participants a ++ [email]))); [done | |].
      * apply lookup_insert_eq.
      * simpl. apply elem_of_app. right. apply list_elem_of_singleton. done.
Qed.

Lemma signup_fails_iff_witness :
  status (dispatch (POST_signup "Basketball" "a@x.edu") activities).1 = 200 ∧
  (dispatch (POST_signup "Basketball" "a@x.edu")
            (dispatch (POST_signup "Basketball" "a@x.edu") activities).2).1
  = signup_Conflict.
Proof.
  assert (status (dispatch (POST_signup "Basketball" "a@x.edu") activities).1 = 200)
    as Hok by reflexivity.
  split; [exact Hok |].
  exact (proj2 (proj2 (proj2 (signup_fails_iff activities "Basketball" "a@x.edu"))) Hok).
Defined.

(** C10: a signup that raises, NotFound or Conflict, leaves the store as it
    was: both checks come before the append. *)
Theorem signup_failure_atomic (store store' : gmap string Activity)
    (activity_name email : string) (e : HTTPException) :
  signup_for_activity activity_name email store = (inl e, store') →
  store' = store ∧
  (dispatch (POST_signup activity_name email) store).2 = store ∧
  (e = {| status_code := 404; detail := "Activity not found" |}
   ∨ e = {| status_code := 400;
            detail := "Student already signed up for this activity" |}).
Proof.
  simpl. unfold respond.
  destruct (lookup_cases store activity_name email) as [Hn|a Hs Hin|a Hs Hout].
  - rewrite signup_unknown by done. intros [= <- <-]. by split_and!; [..| left].
  - rewrite (signup_duplicate _ _ _ a) by done. intros [= <- <-].
    by split_and!; [..| right].
  - rewrite (signup_fresh _ _ _ a) by done. intros [=].
Qed.

Lemma signup_failure_atomic_witness :
  signup_for_activity "NoSuchClub" "a@x.edu" after_signup
  = (inl {| status_code := 404; detail := "Activity not found" |}, after_signup) ∧
  after_signup = after_signup ∧
  (dispatch (POST_signup "NoSuchClub" "a@x.edu") after_signup).2 = after_signup ∧
  ({| status_code := 404; detail := "Activity not found" |}
   = {| status_code := 404; detail := "Activity not found" |}
   ∨ {| status_code := 404; detail := "Activity not found" |}
     = {| status_code := 400;
          detail := "Student already signed up for this activity" |}).
Proof.
  assert (signup_for_activity "NoSuchClub" "a@x.edu" after_signup
          = (inl {| status_code := 404; detail := "Activity not found" |}, after_signup))
    as Hraise by reflexivity.
  split; [exact Hraise |].
  exact (signup_failure_atomic after_signup after_signup "NoSuchClub" "a@x.edu" _ Hraise).
Defined.

(** ** Unregistering *)

(** C1: for an activity of the registry and an email in its participant
    list, unregister answers 200 with a message in which "Unregistered",
    the email and the activity name occur, and removes exactly one
    occurrence of the email from the list: the list was [l1 ++ email :: l2]
    and becomes [l1 ++ l2], nothing else changes. *)
Theorem unregister_removes_one (store : gmap string Activity)
    (activity_name email : string) (activity : Activity) :
  store !! activity_name = Some activity →
  email ∈ participants activity →
  ∃ l1 l2 text,
    participants activity = l1 ++ (email :: l2) ∧
    dispatch (POST_unregister activity_name email) store
    = ({| status := 200; body := MessageJSON text |},
       <[activity_name := set_participants activity (l1 ++ l2)]> store) ∧
    count_occ String.eq_dec (participants activity) email
    = S (count_occ String.eq_dec (l1 ++ l2) email) ∧
    occurs_in "Unregistered" text ∧ occurs_in email text ∧ occurs_in activity_name text.
Proof.
  intros Hs Hin.
  destruct (remove_first_split email (participants activity) Hin)
    as (l1 & l2 & Hl & _ & Hrm).
  exists l1, l2, ("Unregistered " +:+ email +:+ " from " +:+ activity_name).
  split_and!.
  - done.
  - simpl. unfold respond.
    by rewrite (unregister_present _ _ _ activity), Hrm.
  - rewrite Hl. by apply count_occ_elt_eq.
  - by exists "", (" " +:+ email +:+ " from " +:+ activity_name).
  - apply occurs_in_append_r, occurs_in_prefix.
  - do 2 apply occurs_in_append_r. apply occurs_in_suffix.
Qed.

Lemma unregister_removes_one_witness :
  after_signup !! "Basketball" = Some (set_participants Basketball_seed ["a@x.edu"]) ∧
  "a@x.edu" ∈ participants (set_participants Basketball_seed ["a@x.edu"]) ∧
  ∃ l1 l2 text,
    participants (set_participants Basketball_seed ["a@x.edu"]) = l1 ++ ("a@x.edu" :: l2) ∧
    dispatch (POST_unregister "Basketball" "a@x.edu") after_signup
    = ({| status := 200; body := MessageJSON text |},
       <["Basketball" :=
           set_participants (set_participants Basketball_seed ["a@x.edu"]) (l1 ++ l2)]>
         after_signup) ∧
    count_occ String.eq_dec (participants (set_participants Basketball_seed ["a@x.edu"]))
              "a@x.edu"
    = S (count_occ String.eq_dec (l1 ++ l2) "a@x.edu") ∧
    occurs_in "Unregistered" text ∧ occurs_in "a@x.edu" text ∧ occurs_in "Basketball" text.
Proof.
  assert ("a@x.edu" ∈ participants (set_participants Basketball_seed ["a@x.edu"]))
    as Hin by apply list_elem_of_here.
  split; [exact after_signup_Basketball |]. split; [exact Hin |].
  exact (unregister_removes_one after_signup "Basketball" "a@x.edu" _
           after_signup_Basketball Hin).
Defined.

(** C4: unregister answers NotFound (404, "Activity not found") exactly
    when the name is not a key of the registry, whatever the email, so the
    existence check comes first; it answers Conflict (400, with "not signed
    up" in the detail) exactly when the name is a key and the email is not
    in that activity's list; and "NoSuchClub" is not a key in any state the
    process can reach, so unregistering from it is always NotFound. *)
Theorem unregister_fails (store : gmap string Activity) (activity_name email : string) :
  ((dispatch (POST_unregister activity_name email) store).1 = NotFound
   ↔ store !! activity_name = None) ∧
  ((dispatch (POST_unregister activity_name email) store).1 = unregister_Conflict
   ↔ ∃ activity, store !! activity_name = Some activity ∧ email ∉ participants activity) ∧
  (status unregister_Conflict = 400 ∧
   ∃ text, body unregister_Conflict = DetailJSON text ∧ occurs_in "not signed up" text) ∧
  (reachable store →
   dispatch (POST_unregister "NoSuchClub" email) store = (NotFound, store)).
Proof.
  split_and!.
  - simpl. unfold respond.
    destruct (lookup_cases store activity_name email) as [Hn|a Hs Hin|a Hs Hout].
    + by rewrite unregister_unknown.
    + rewrite (unregister_present _ _ _ a) by done. simpl. split; [done | congruence].
    + rewrite (unregister_absent _ _ _ a) by done. simpl. split; [done | congruence].
  - simpl. unfold respond.
    destruct (lookup_cases store activity_name email) as [Hn|a Hs Hin|a Hs Hout].
    + rewrite unregister_unknown by done. simpl.
      split; [done |]. intros (a & Ha & _). congruence.
    + rewrite (unregister_present _ _ _ a) by done. simpl.
      split; [done |]. intros (a' & Ha' & Hout). congruence.
    + rewrite (unregister_absent _ _ _ a) by done. simpl.
      split; [by exists a | done].
  - done.
  - eexists. split; [reflexivity |]. by exists "Student is ", " for this activity".
  - intros Hr. simpl. unfold respond. rewrite unregister_unknown; [done |].
    by apply reachable_lookup_None.
Qed.

Lemma unregister_fails_witness :
  reachable after_signup ∧
  dispatch (POST_unregister "NoSuchClub" "a@x.edu") after_signup = (NotFound, after_signup).
Proof.
  split; [exact after_signup_reachable |].
  exact (proj2 (proj2 (proj2 (unregister_fails after_signup "NoSuchClub" "a@x.edu")))
           after_signup_reachable).
Defined.

(** ** Round trip *)

(** C7: for an activity of the registry and an email not registered for it,
    signup, unregister, signup are all three answered with 200, and in the
    final store the email is in the activity's participant list (which is
    the original list followed by the email). *)
Theorem signup_unregister_signup (store : gmap string Activity)
    (activity_name email : string) (activity : Activity) :
  store !! activity_name = Some activity →
  email ∉ participants activity →
  ∃ final activity',
    run [POST_signup activity_name email;
         POST_unregister activity_name email;
         POST_signup activity_name email] store
    = ([ {| status := 200;
            body := MessageJSON ("Signed up " +:+ email +:+ " for " +:+ activity_name) |};
         {| status := 200;
            body := MessageJSON ("Unregistered " +:+ email +:+ " from " +:+ activity_name) |};
         {| status := 200;
            body := MessageJSON ("Signed up " +:+ email +:+ " for " +:+ activity_name) |} ],
       final) ∧
    final !! activity_name = Some activity' ∧
    email ∈ participants activity' ∧
    participants activity' = participants activity ++ [email].
Proof.
  intros Hs Hout.
  set (a1 := set_participants activity (participants activity ++ [email])).
  set (a2 := set_participants a1 (remove_first email (participants a1))).
  set (a3 := set_participants a2 (participants a2 ++ [email])).
  assert (participants a2 = participants activity) as Hp2
    by (simpl; by apply remove_first_snoc).
  exists (<[activity_name := a3]> (<[activity_name := a2]> (<[activity_name := a1]> store))), a3.
  split_and!.
  - unfold run. simpl. unfold respond.
    rewrite (signup_fresh _ _ _ activity) by done. fold a1.
    rewrite (unregister_present _ _ _ a1);
      [| apply lookup_insert_eq
       | simpl; apply elem_of_app; right; by apply list_elem_of_singleton].
    fold a2.
    rewrite (signup_fresh _ _ _ a2);
      [| apply lookup_insert_eq | by rewrite Hp2].
    done.
  - apply lookup_insert_eq.
  - simpl. apply elem_of_app. right. by apply list_elem_of_singleton.
  - unfold a3. simpl. fold a1. by rewrite remove_first_snoc.
Qed.

Lemma signup_unregister_signup_witness :
  after_signup !! "Soccer" = Some (new_activity "Play soccer and develop teamwork skills"
                                                "Tuesday & Thursday, 3:30 PM") ∧
  ("b@x.edu" ∉ participants (new_activity "Play soccer and develop teamwork skills"
                                          "Tuesday & Thursday, 3:30 PM")) ∧
  ∃ final activity',
    run [POST_signup "Soccer" "b@x.edu";
         POST_unregister "Soccer" "b@x.edu";
         POST_signup "Soccer" "b@x.edu"] after_signup
    = ([ {| status := 200;
            body := MessageJSON ("Signed up " +:+ "b@x.edu" +:+ " for " +:+ "Soccer") |};
         {| status := 200;
            body := MessageJSON ("Unregistered " +:+ "b@x.edu" +:+ " from " +:+ "Soccer") |};
         {| status := 200;
            body := MessageJSON ("Signed up " +:+ "b@x.edu" +:+ " for " +:+ "Soccer") |} ],
       final) ∧
    final !! "Soccer" = Some activity' ∧
    "b@x.edu" ∈ participants activity' ∧
    participants activity'
    = participants (new_activity "Play soccer and develop teamwork skills"
                                 "Tuesday & Thursday, 3:30 PM") ++ ["b@x.edu"].
Proof.
  assert (after_signup !! "Soccer"
          = Some (new_activity "Play soccer and develop teamwork skills"
                               "Tuesday & Thursday, 3:30 PM")) as Hs by reflexivity.
  assert ("b@x.edu" ∉ participants (new_activity "Play soccer and develop teamwork skills"
                                                 "Tuesday & Thursday, 3:30 PM"))
    as Hout by apply not_elem_of_nil.
  split; [exact Hs |]. split; [exact Hout |].
  exact (signup_unregister_signup after_signup "Soccer" "b@x.edu" _ Hs Hout).
Defined.

(** ** Invariants of the reachable stores *)

(** C5: in every store reachable from the seeded one by any sequence of
    requests (root, list, signup, unregister), no participant list holds an
    email twice. *)
Theorem participants_unique (store : gmap string Activity) :
  reachable store →
  ∀ name activity email,
    store !! name = Some activity →
    NoDup (participants activity) ∧
    (count_occ String.eq_dec (participants activity) email ≤ 1)%nat.
Proof.
  intros Hr.
  assert (no_duplicates store) as Hinv.
  { induction Hr as [|r store _ IH].
    - apply activities_no_duplicates.
    - by apply dispatch_no_duplicates. }
  intros name a email Hlook. pose proof (Hinv name a Hlook) as Hnd.
  split; [done |].
  apply NoDup_ListNoDup in Hnd.
  by apply (proj1 (NoDup_count_occ String.eq_dec (participants a))).
Qed.

Lemma participants_unique_witness :
  reachable after_signup ∧
  after_signup !! "Basketball" = Some (set_participants Basketball_seed ["a@x.edu"]) ∧
  NoDup (participants (set_participants Basketball_seed ["a@x.edu"])) ∧
  (count_occ String.eq_dec (participants (set_participants Basketball_seed ["a@x.edu"]))
             "a@x.edu" ≤ 1)%nat.
Proof.
  split; [exact after_signup_reachable |].
  split; [exact after_signup_Basketball |].
  exact (participants_unique after_signup after_signup_reachable "Basketball" _ "a@x.edu"
           after_signup_Basketball).
Defined.

(** C6: the registry is seeded with exactly ten activities, and in every
    reachable store the key set is the seeded one: the listing answers 200
    with the whole store, in which every seeded name is bound to a record
    with its seeded description and schedule and some participant list. *)
Theorem registry_keys_fixed (store : gmap string Activity) :
  reachable store →
  size activities = 10%nat ∧
  length seeded_names = 10%nat ∧
  NoDup seeded_names ∧
  dom activities = list_to_set seeded_names ∧
  dom store = dom activities ∧
  dispatch GET_activities store
  = ({| status := 200; body := ActivitiesJSON store |}, store) ∧
  ∀ name, name ∈ seeded_names →
    ∃ activity seed,
      store !! name = Some activity ∧
      activities !! name = Some seed ∧
      description activity = description seed ∧
      schedule activity = schedule seed.
Proof.
  intros Hr. split_and!.
  - apply size_activities.
  - reflexivity.
  - apply NoDup_seeded_names.
  - apply dom_activities.
  - by apply reachable_dom.
  - reflexivity.
  - intros name Hname.
    assert (is_Some (activities !! name)) as [seed Hseed].
    { apply elem_of_dom. rewrite dom_activities. by apply elem_of_list_to_set. }
    pose proof (reachable_offering store name Hr) as Ho.
    unfold offering in Ho. rewrite Hseed in Ho.
    destruct (store !! name) as [a|] eqn:Hlook; [| done].
    injection Ho as Hd Hsch. by exists a, seed.
Qed.

Lemma registry_keys_fixed_witness :
  reachable after_signup ∧
  dom after_signup = dom activities ∧
  ∀ name, name ∈ seeded_names →
    ∃ activity seed,
      after_signup !! name = Some activity ∧
      activities !! name = Some seed ∧
      description activity = description seed ∧
      schedule activity = schedule seed.
Proof.
  split; [exact after_signup_reachable |].
  pose proof (registry_keys_fixed after_signup after_signup_reachable)
    as (_ & _ & _ & _ & Hdom & _ & Hall).
  split; [exact Hdom | exact Hall].
Defined.

(** ** Requests without effect *)

(** C8: listing has no side effect and never fails: in every store the
    handler returns the store itself, the answer is 200 with the whole
    mapping, and the store is left as it was. *)
Theorem get_activities_pure (store : gmap string Activity) :
  get_activities store = (inr store, store) ∧
  dispatch GET_activities store
  = ({| status := 200; body := ActivitiesJSON store |}, store).
Proof. split; reflexivity. Qed.

(** C9: GET / is answered in every store with status 307 and the target
    /static/index.html, and leaves the store as it was. *)
Theorem root_redirect (store : gmap string Activity) :
  root store = (inr {| url := "/static/index.html"; redirect_status := 307 |}, store) ∧
  dispatch GET_root store
  = ({| status := 307; body := Location "/static/index.html" |}, store).
Proof. split; reflexivity. Qed.

(** ** The scenario of the spec's section 8 *)

Example scenario_statuses :
  map status (run [ POST_signup "Basketball" "a@x.edu";
                    POST_signup "Basketball" "a@x.edu";
                    POST_unregister "Basketball" "a@x.edu" ] activities).1
  = [200; 400; 200].
Proof. reflexivity. Qed.

Example scenario_final_store :
  (run [ POST_signup "Basketball" "a@x.edu";
         POST_signup "Basketball" "a@x.edu";
         POST_unregister "Basketball" "a@x.edu" ] activities).2 = activities.
Proof. reflexivity. Qed.

Example signup_order_kept :
  participants <$>
    (run [ POST_signup "Chess Club" "student1@mergington.edu";
           POST_signup "Chess Club" "student2@mergington.edu" ] activities).2
      !! "Chess Club"
  = Some ["student1@mergington.edu"; "student2@mergington.edu"].
Proof. reflexivity. Qed.

(** * Further properties of app.py and of the test fixture *)

(** ** Serving several requests *)

Lemma run_acc (rs : list Request) (out : list Response) (store : gmap string Activity) :
  foldl (λ acc r, let '(out, st) := acc in
                  let '(resp, st') := dispatch r st in (out ++ [resp], st'))
        (out, store) rs
  = (out ++ (run rs store).1, (run rs store).2).
Proof.
  revert out store. induction rs as [|r rs IH]; intros out store.
  - simpl. by rewrite app_nil_r.
  - unfold run. simpl. destruct (dispatch r store) as [resp st'].
    rewrite !IH. simpl. by rewrite <-app_assoc.
Qed.

Lemma run_nil (store : gmap string Activity) : run [] store = ([], store).
Proof. done. Qed.

Lemma run_cons (r : Request) (rs : list Request) (store : gmap string Activity) :
  run (r :: rs) store
  = ((dispatch r store).1 :: (run rs (dispatch r store).2).1,
     (run rs (dispatch r store).2).2).
Proof.
  unfold run at 1. simpl. destruct (dispatch r store) as [resp st'].
  by rewrite run_acc.
Qed.

(** ** What signup keeps *)

(** X1: whatever it answers, signup removes and reorders nothing: every
    activity of the store is still there afterwards with the same
    description and schedule, its old participant list is a prefix of the
    new one, and an activity other than the one named is left exactly as it
    was. *)
Theorem signup_keeps_registered (store : gmap string Activity)
    (activity_name email name : string) (activity : Activity) :
  store !! name = Some activity →
  ∃ activity',
    (signup_for_activity activity_name email store).2 !! name = Some activity' ∧
    participants activity `prefix_of` participants activity' ∧
    description activity' = description activity ∧
    schedule activity' = schedule activity ∧
    (name ≠ activity_name → activity' = activity).
Proof.
  intros Hlook.
  destruct (lookup_cases store activity_name email) as [Hn|a Hs Hin|a Hs Hout].
  - rewrite signup_unknown by done. by exists activity.
  - rewrite (signup_duplicate _ _ _ a) by done. by exists activity.
  - rewrite (signup_fresh _ _ _ a) by done. simpl.
    destruct (decide (activity_name = name)) as [-> | Hne].
    + assert (a = activity) as -> by congruence.
      exists (set_participants activity (participants activity ++ [email])).
      rewrite lookup_insert_eq. split_and!; try done.
      simpl. by apply prefix_app_r.
    + exists activity. by rewrite lookup_insert_ne.
Qed.

Lemma signup_keeps_registered_witness :
  after_signup !! "Basketball" = Some (set_participants Basketball_seed ["a@x.edu"]) ∧
  ∃ activity',
    (signup_for_activity "Basketball" "b@x.edu" after_signup).2 !! "Basketball"
    = Some activity' ∧
    participants (set_participants Basketball_seed ["a@x.edu"])
      `prefix_of` participants activity' ∧
    description activity' = description (set_participants Basketball_seed ["a@x.edu"]) ∧
    schedule activity' = schedule (set_participants Basketball_seed ["a@x.edu"]) ∧
    ("Basketball" ≠ "Basketball" → activity' = set_participants Basketball_seed ["a@x.edu"]).
Proof.
  split; [exact after_signup_Basketball |].
  exact (signup_keeps_registered after_signup "Basketball" "b@x.edu" "Basketball" _
           after_signup_Basketball).
Defined.

(** X2: signup never creates or deletes an activity, in any store: the key
    set after the call is the key set before, also when the name given is
    not a key (the answer is then 404 and nothing is inserted). *)
Theorem signup_keeps_keys (store : gmap string Activity) (activity_name email : string) :
  dom (signup_for_activity activity_name email store).2 = dom store.
Proof.
  destruct (lookup_cases store activity_name email) as [Hn|a Hs Hin|a Hs Hout].
  - by rewrite signup_unknown.
  - by rewrite (signup_duplicate _ _ _ a).
  - rewrite (signup_fresh _ _ _ a) by done. simpl.
    rewrite dom_insert_L. pose proof (elem_of_dom_2 _ _ _ Hs) as Hdom.
    apply set_eq. intros k. rewrite elem_of_union, elem_of_singleton.
    split; [by intros [-> | ?] | by right].
Qed.

(** X3: after a signup request for an activity of the store the email is in
    that activity's list, whether the answer was 200 or 400, and sending
    the same request again changes nothing more. *)
Theorem signup_ensures_registered (store : gmap string Activity)
    (activity_name email : string) (activity : Activity) :
  store !! activity_name = Some activity →
  (∃ activity',
     (signup_for_activity activity_name email store).2 !! activity_name
     = Some activity' ∧
     email ∈ participants activity') ∧
  (signup_for_activity activity_name email
     (signup_for_activity activity_name email store).2).2
  = (signup_for_activity activity_name email store).2.
Proof.
  intros Hlook.
  destruct (lookup_cases store activity_name email) as [Hn|a Hs Hin|a Hs Hout].
  - congruence.
  - rewrite (signup_duplicate _ _ _ a) by done. simpl.
    rewrite (signup_duplicate _ _ _ a) by done. split; [by exists a | done].
  - rewrite (signup_fresh _ _ _ a) by done. simpl.
    assert (email ∈ participants a ++ [email]) as Hin
      by (apply elem_of_app; right; by apply list_elem_of_singleton).
    split.
    + eexists. split; [apply lookup_insert_eq | done].
    + rewrite (signup_duplicate _ _ _ (set_participants a (participants a ++ [email])));
        [done | apply lookup_insert_eq | done].
Qed.

Lemma signup_ensures_registered_witness :
  activities !! "Basketball" = Some Basketball_seed ∧
  (∃ activity',
     (signup_for_activity "Basketball" "a@x.edu" activities).2 !! "Basketball"
     = Some activity' ∧
     "a@x.edu" ∈ participants activity') ∧
  (signup_for_activity "Basketball" "a@x.edu"
     (signup_for_activity "Basketball" "a@x.edu" activities).2).2
  = (signup_for_activity "Basketball" "a@x.edu" activities).2.
Proof.
  assert (activities !! "Basketball" = Some Basketball_seed) as Hs by reflexivity.
  split; [exact Hs |].
  exact (signup_ensures_registered activities "Basketball" "a@x.edu" _ Hs).
Defined.

(** ** How signups compose *)

(** X4: signups for two different activities do not interfere: each is
    answered the same whether it comes first or second, and the store after
    both is the same in either order. *)
Theorem signup_commute (store : gmap string Activity) (a b ea eb : string) :
  a ≠ b →
  (dispatch (POST_signup b eb) (dispatch (POST_signup a ea) store).2).1
  = (dispatch (POST_signup b eb) store).1 ∧
  (dispatch (POST_signup a ea) (dispatch (POST_signup b eb) store).2).1
  = (dispatch (POST_signup a ea) store).1 ∧
  (dispatch (POST_signup b eb) (dispatch (POST_signup a ea) store).2).2
  = (dispatch (POST_signup a ea) (dispatch (POST_signup b eb) store).2).2.
Proof.
  intros Hne. simpl. unfold respond.
  destruct (lookup_cases store a ea) as [Ha|xa Ha Hina|xa Ha Houta];
    destruct (lookup_cases store b eb) as [Hb|xb Hb Hinb|xb Hb Houtb].
  all: repeat first
    [ rewrite (signup_unknown store a) by done
    | rewrite (signup_unknown store b) by done
    | rewrite (signup_duplicate store a _ xa) by done
    | rewrite (signup_duplicate store b _ xb) by done
    | rewrite (signup_fresh store a _ xa) by done
    | rewrite (signup_fresh store b _ xb) by done ]; simpl.
  all: repeat first
    [ rewrite (signup_unknown _ a) by (by rewrite ?lookup_insert_ne)
    | rewrite (signup_unknown _ b) by (by rewrite ?lookup_insert_ne)
    | rewrite (signup_duplicate _ a _ xa) by (by rewrite ?lookup_insert_ne)
    | rewrite (signup_duplicate _ b _ xb) by (by rewrite ?lookup_insert_ne)
    | rewrite (signup_fresh _ a _ xa) by (by rewrite ?lookup_insert_ne)
    | rewrite (signup_fresh _ b _ xb) by (by rewrite ?lookup_insert_ne) ]; simpl.
  all: split_and!; try done.
  by apply insert_insert_ne.
Qed.

Lemma signup_commute_witness :
  "Basketball" ≠ "Soccer" ∧
  (dispatch (POST_signup "Soccer" "a@x.edu")
            (dispatch (POST_signup "Basketball" "a@x.edu") activities).2).1
  = (dispatch (POST_signup "Soccer" "a@x.edu") activities).1 ∧
  (dispatch (POST_signup "Basketball" "a@x.edu")
            (dispatch (POST_signup "Soccer" "a@x.edu") activities).2).1
  = (dispatch (POST_signup "Basketball" "a@x.edu") activities).1 ∧
  (dispatch (POST_signup "Soccer" "a@x.edu")
            (dispatch (POST_signup "Basketball" "a@x.edu") activities).2).2
  = (dispatch (POST_signup "Basketball" "a@x.edu")
              (dispatch (POST_signup "Soccer" "a@x.edu") activities).2).2.
Proof.
  assert ("Basketball" ≠ "Soccer") as Hne by discriminate.
  split; [exact Hne |].
  exact (signup_commute activities "Basketball" "Soccer" "a@x.edu" "a@x.edu" Hne).
Defined.

Lemma dispatch_signup_store (store : gmap string Activity) (activity_name email : string) :
  (dispatch (POST_signup activity_name email) store).2
  = (signup_for_activity activity_name email store).2.
Proof.
  simpl. unfold respond.
  by destruct (signup_for_activity activity_name email store) as [[e|x] st].
Qed.

Lemma dispatch_signup_unknown (store : gmap string Activity) (activity_name email : string) :
  store !! activity_name = None →
  dispatch (POST_signup activity_name email) store = (NotFound, store).
Proof. intros Hn. simpl. unfold respond. by rewrite signup_unknown. Qed.

Lemma dispatch_signup_duplicate (store : gmap string Activity)
    (activity_name email : string) (activity : Activity) :
  store !! activity_name = Some activity →
  email ∈ participants activity →
  dispatch (POST_signup activity_name email) store = (signup_Conflict, store).
Proof.
  intros Hs Hin. simpl. unfold respond. by rewrite (signup_duplicate _ _ _ activity).
Qed.

Lemma dispatch_signup_fresh (store : gmap string Activity)
    (activity_name email : string) (activity : Activity) :
  store !! activity_name = Some activity →
  email ∉ participants activity →
  dispatch (POST_signup activity_name email) store
  = (signed_up activity_name email,
     <[activity_name := set_participants activity (participants activity ++ [email])]> store).
Proof.
  intros Hs Hout. simpl. unfold respond. by rewrite (signup_fresh _ _ _ activity).
Qed.

(** X5: a list of pairwise different emails, none of them registered yet,
    signed up one after the other for an activity of the store: every
    request is answered 200 with its message, the activity's list becomes
    the old list followed by the emails in the order of the requests, and
    no other activity changes. *)
Theorem signup_all_fresh (es : list string) (store : gmap string Activity)
    (activity_name : string) (activity : Activity) :
  store !! activity_name = Some activity →
  NoDup es →
  (∀ e, e ∈ es → e ∉ participants activity) →
  (run (POST_signup activity_name <$> es) store).1 = signed_up activity_name <$> es ∧
  (run (POST_signup activity_name <$> es) store).2 !! activity_name
  = Some (set_participants activity (participants activity ++ es)) ∧
  ∀ name, name ≠ activity_name →
    (run (POST_signup activity_name <$> es) store).2 !! name = store !! name.
Proof.
  revert store activity. induction es as [|e es IH]; intros store activity Hs Hnd Hfresh.
  - rewrite fmap_nil, run_nil. simpl. rewrite app_nil_r. split_and!; [done | | done].
    rewrite Hs. by destruct activity.
  - apply NoDup_cons in Hnd as [He Hnd].
    assert (e ∉ participants activity) as Hout by (apply Hfresh; left).
    rewrite fmap_cons, run_cons.
    rewrite (dispatch_signup_fresh _ _ _ activity) by done. simpl.
    set (a1 := set_participants activity (participants activity ++ [e])).
    destruct (IH (<[activity_name := a1]> store) a1) as (Hresp & Hlook & Hother).
    + apply lookup_insert_eq.
    + done.
    + intros e' He'. simpl. rewrite elem_of_app, list_elem_of_singleton.
      intros [Hin | ->]; [| done]. by apply (Hfresh e'); [right |].
    + split_and!.
      * by rewrite Hresp.
      * rewrite Hlook. unfold a1, set_participants. simpl.
        by rewrite <-app_assoc.
      * intros name Hne. rewrite Hother by done. by rewrite lookup_insert_ne.
Qed.

Lemma signup_all_fresh_witness :
  after_signup !! "Basketball" = Some (set_participants Basketball_seed ["a@x.edu"]) ∧
  NoDup ["b@x.edu"; "c@x.edu"] ∧
  (∀ e, e ∈ ["b@x.edu"; "c@x.edu"] →
        e ∉ participants (set_participants Basketball_seed ["a@x.edu"])) ∧
  (run (POST_signup "Basketball" <$> ["b@x.edu"; "c@x.edu"]) after_signup).1
  = signed_up "Basketball" <$> ["b@x.edu"; "c@x.edu"] ∧
  (run (POST_signup "Basketball" <$> ["b@x.edu"; "c@x.edu"]) after_signup).2 !! "Basketball"
  = Some (set_participants (set_participants Basketball_seed ["a@x.edu"])
            (participants (set_participants Basketball_seed ["a@x.edu"])
             ++ ["b@x.edu"; "c@x.edu"])) ∧
  ∀ name, name ≠ "Basketball" →
    (run (POST_signup "Basketball" <$> ["b@x.edu"; "c@x.edu"]) after_signup).2 !! name
    = after_signup !! name.
Proof.
  assert (NoDup ["b@x.edu"; "c@x.edu"]) as Hnd
    by (by apply (bool_decide_unpack (NoDup ["b@x.edu"; "c@x.edu"]))).
  assert (∀ e, e ∈ ["b@x.edu"; "c@x.edu"] →
               e ∉ participants (set_participants Basketball_seed ["a@x.edu"])) as Hfresh.
  { intros e He Ha. simpl in Ha. apply list_elem_of_singleton in Ha as ->.
    apply elem_of_cons in He as [He | He]; [discriminate |].
    apply list_elem_of_singleton in He. discriminate. }
  split; [exact after_signup_Basketball |]. split; [exact Hnd |]. split; [exact Hfresh |].
  exact (signup_all_fresh ["b@x.edu"; "c@x.edu"] after_signup "Basketball" _
           after_signup_Basketball Hnd Hfresh).
Defined.

(** ** What the routes of app.py never do *)

(** X6: no route of app.py removes a participant.  Once an email is in an
    activity's list it is still there after any sequence of requests to
    [/], [/activities] and the signup route, and a signup for that
    activity and email is then answered with 400 Conflict. *)
Theorem registered_stays_registered (rs : list Request) (store : gmap string Activity)
    (activity_name email : string) (activity : Activity) :
  store !! activity_name = Some activity →
  email ∈ participants activity →
  forallb app_route rs = true →
  (∃ activity',
     (run rs store).2 !! activity_name = Some activity' ∧
     email ∈ participants activity') ∧
  dispatch (POST_signup activity_name email) (run rs store).2
  = (signup_Conflict, (run rs store).2).
Proof.
  revert store activity. induction rs as [|r rs IH]; intros store activity Hs Hin Hrs.
  - rewrite run_nil. simpl fst. simpl snd.
    split; [by exists activity | by apply (dispatch_signup_duplicate _ _ _ activity)].
  - simpl in Hrs. apply andb_prop in Hrs as [Hr Hrs].
    rewrite run_cons. simpl snd.
    assert (∃ a1, (dispatch r store).2 !! activity_name = Some a1
                  ∧ email ∈ participants a1) as (a1 & Hs1 & Hin1).
    { destruct r as [| |name e|name e]; [by exists activity.. | | done].
      destruct (signup_keeps_registered store name e activity_name activity Hs)
        as (a1 & Hs1 & [k Hk] & _).
      exists a1. rewrite dispatch_signup_store. split; [done |].
      rewrite Hk. apply elem_of_app. by left. }
    by apply (IH _ a1).
Qed.

Lemma registered_stays_registered_witness :
  after_signup !! "Basketball" = Some (set_participants Basketball_seed ["a@x.edu"]) ∧
  "a@x.edu" ∈ participants (set_participants Basketball_seed ["a@x.edu"]) ∧
  forallb app_route [GET_activities; POST_signup "Basketball" "b@x.edu"; GET_root] = true ∧
  (∃ activity',
     (run [GET_activities; POST_signup "Basketball" "b@x.edu"; GET_root] after_signup).2
       !! "Basketball" = Some activity' ∧
     "a@x.edu" ∈ participants activity') ∧
  dispatch (POST_signup "Basketball" "a@x.edu")
           (run [GET_activities; POST_signup "Basketball" "b@x.edu"; GET_root] after_signup).2
  = (signup_Conflict,
     (run [GET_activities; POST_signup "Basketball" "b@x.edu"; GET_root] after_signup).2).
Proof.
  assert ("a@x.edu" ∈ participants (set_participants Basketball_seed ["a@x.edu"]))
    as Hin by apply list_elem_of_here.
  assert (forallb app_route [GET_activities; POST_signup "Basketball" "b@x.edu"; GET_root]
          = true) as Hrs by reflexivity.
  split; [exact after_signup_Basketball |]. split; [exact Hin |]. split; [exact Hrs |].
  exact (registered_stays_registered _ after_signup "Basketball" "a@x.edu" _
           after_signup_Basketball Hin Hrs).
Defined.

(** ** Counting *)

(** X7: over any sequence of requests to the routes of app.py, the length
    of an activity's participant list grows by exactly the number of
    signups for that activity that were answered with 200. *)
Theorem participants_count (rs : list Request) (store : gmap string Activity)
    (activity_name : string) (activity : Activity) :
  store !! activity_name = Some activity →
  forallb app_route rs = true →
  ∃ activity',
    (run rs store).2 !! activity_name = Some activity' ∧
    length (participants activity')
    = (length (participants activity)
       + accepted_signups activity_name rs (run rs store).1)%nat.
Proof.
  revert store activity. induction rs as [|r rs IH]; intros store activity Hs Hrs.
  - exists activity. rewrite run_nil. simpl. split; [done | lia].
  - simpl in Hrs. apply andb_prop in Hrs as [Hr Hrs]. rewrite run_cons.
    destruct r as [| |name e|name e]; [| | | done].
    + destruct (IH store activity Hs Hrs) as (a' & Hs' & Hlen). by exists a'.
    + destruct (IH store activity Hs Hrs) as (a' & Hs' & Hlen). by exists a'.
    + destruct (lookup_cases store name e) as [Hn|a Ha Hin|a Ha Hout].
      * rewrite dispatch_signup_unknown by done.
        destruct (IH store activity Hs Hrs) as (a' & Hs' & Hlen). exists a'.
        split; [done |]. simpl.
        rewrite bool_decide_eq_false_2; [done |]. by intros [_ ?].
      * rewrite (dispatch_signup_duplicate _ _ _ a) by done.
        destruct (IH store activity Hs Hrs) as (a' & Hs' & Hlen). exists a'.
        split; [done |]. simpl.
        rewrite bool_decide_eq_false_2; [done |]. by intros [_ ?].
      * rewrite (dispatch_signup_fresh _ _ _ a) by done.
        set (a1 := set_participants a (participants a ++ [e])).
        destruct (decide (name = activity_name)) as [-> | Hne].
        -- assert (a = activity) as -> by congruence.
           destruct (IH (<[activity_name := a1]> store) a1) as (a' & Hs' & Hlen);
             [apply lookup_insert_eq | done |].
           exists a'. split; [done |]. simpl.
           rewrite bool_decide_eq_true_2 by done.
           rewrite Hlen. unfold a1. simpl. rewrite length_app. simpl. lia.
        -- destruct (IH (<[name := a1]> store) activity) as (a' & Hs' & Hlen);
             [by rewrite lookup_insert_ne | done |].
           exists a'. split; [done |]. simpl.
           rewrite bool_decide_eq_false_2; [done |]. by intros [? _].
Qed.

Lemma participants_count_witness :
  activities !! "Basketball" = Some Basketball_seed ∧
  forallb app_route [ POST_signup "Basketball" "a@x.edu"; GET_activities;
                      POST_signup "Basketball" "a@x.edu"; POST_signup "Soccer" "a@x.edu";
                      POST_signup "Basketball" "b@x.edu" ] = true ∧
  ∃ activity',
    (run [ POST_signup "Basketball" "a@x.edu"; GET_activities;
           POST_signup "Basketball" "a@x.edu"; POST_signup "Soccer" "a@x.edu";
           POST_signup "Basketball" "b@x.edu" ] activities).2 !! "Basketball"
    = Some activity' ∧
    length (participants activity')
    = (length (participants Basketball_seed)
       + accepted_signups "Basketball"
           [ POST_signup "Basketball" "a@x.edu"; GET_activities;
             POST_signup "Basketball" "a@x.edu"; POST_signup "Soccer" "a@x.edu";
             POST_signup "Basketball" "b@x.edu" ]
           (run [ POST_signup "Basketball" "a@x.edu"; GET_activities;
                  POST_signup "Basketball" "a@x.edu"; POST_signup "Soccer" "a@x.edu";
                  POST_signup "Basketball" "b@x.edu" ] activities).1)%nat.
Proof.
  assert (activities !! "Basketball" = Some Basketball_seed) as Hs by reflexivity.
  assert (forallb app_route [ POST_signup "Basketball" "a@x.edu"; GET_activities;
                              POST_signup "Basketball" "a@x.edu";
                              POST_signup "Soccer" "a@x.edu";
                              POST_signup "Basketball" "b@x.edu" ] = true)
    as Hrs by reflexivity.
  split; [exact Hs |]. split; [exact Hrs |].
  exact (participants_count _ activities "Basketball" _ Hs Hrs).
Defined.

(** ** The test fixture *)

Lemma reset_activities_seed : reset_activities activities = activities.
Proof. reflexivity. Qed.

Lemma reset_reachable (store : gmap string Activity) :
  reachable store → reset_activities store = activities.
Proof.
  intros Hr. rewrite <-reset_activities_seed. apply map_eq. intros name.
  unfold reset_activities. rewrite !lookup_fmap.
  pose proof (reachable_offering store name Hr) as Ho. unfold offering in Ho.
  destruct (store !! name) as [a|], (activities !! name) as [a0|]; simpl in *;
    try done.
  injection Ho as Hd Hsch. unfold set_participants. by rewrite Hd, Hsch.
Qed.

Lemma run_reachable (rs : list Request) (store : gmap string Activity) :
  reachable store → reachable (run rs store).2.
Proof.
  revert store. induction rs as [|r rs IH]; intros store Hr; [done |].
  rewrite run_cons. simpl snd. by apply IH, reachable_request.
Qed.

(** X8: the fixture restores the seeded database: after any sequence of
    requests to the routes of app.py served from the start, resetting the
    store gives back [activities] as it is written in app.py. *)
Theorem reset_restores_seed (rs : list Request) :
  forallb app_route rs = true →
  reset_activities (run rs activities).2 = activities.
Proof.
  intros _. apply reset_reachable, run_reachable, reachable_start.
Qed.

Lemma reset_restores_seed_witness :
  forallb app_route [ POST_signup "Basketball" "a@x.edu"; GET_activities;
                      POST_signup "Chess Club" "b@x.edu" ] = true ∧
  reset_activities (run [ POST_signup "Basketball" "a@x.edu"; GET_activities;
                          POST_signup "Chess Club" "b@x.edu" ] activities).2
  = activities.
Proof.
  assert (forallb app_route [ POST_signup "Basketball" "a@x.edu"; GET_activities;
                              POST_signup "Chess Club" "b@x.edu" ] = true)
    as Hrs by reflexivity.
  split; [exact Hrs |].
  exact (reset_restores_seed _ Hrs).
Defined.

(** X9: in any store the fixture keeps the keys with their descriptions and
    schedules and leaves every participant list empty, so that afterwards a
    signup of any email for any activity of the store is answered 200 and
    the activity's list is that one email. *)
Theorem signup_after_reset (store : gmap string Activity)
    (activity_name email : string) (activity : Activity) :
  store !! activity_name = Some activity →
  dom (reset_activities store) = dom store ∧
  reset_activities store !! activity_name
  = Some {| description := description activity;
            schedule := schedule activity;
            participants := [] |} ∧
  dispatch (POST_signup activity_name email) (reset_activities store)
  = (signed_up activity_name email,
     <[activity_name := {| description := description activity;
                           schedule := schedule activity;
                           participants := [email] |}]> (reset_activities store)).
Proof.
  intros Hs.
  assert (reset_activities store !! activity_name = Some (set_participants activity []))
    as Hreset by (unfold reset_activities; by rewrite lookup_fmap, Hs).
  split_and!.
  - unfold reset_activities. apply dom_fmap_L.
  - done.
  - rewrite (dispatch_signup_fresh _ _ _ (set_participants activity []));
      [done | done | apply not_elem_of_nil].
Qed.

Lemma signup_after_reset_witness :
  after_signup !! "Basketball" = Some (set_participants Basketball_seed ["a@x.edu"]) ∧
  dom (reset_activities after_signup) = dom after_signup ∧
  reset_activities after_signup !! "Basketball"
  = Some {| description := description (set_participants Basketball_seed ["a@x.edu"]);
            schedule := schedule (set_participants Basketball_seed ["a@x.edu"]);
            participants := [] |} ∧
  dispatch (POST_signup "Basketball" "a@x.edu") (reset_activities after_signup)
  = (signed_up "Basketball" "a@x.edu",
     <["Basketball" :=
         {| description := description (set_participants Basketball_seed ["a@x.edu"]);
            schedule := schedule (set_participants Basketball_seed ["a@x.edu"]);
            participants := ["a@x.edu"] |}]> (reset_activities after_signup)).
Proof.
  split; [exact after_signup_Basketball |].
  exact (signup_after_reset after_signup "Basketball" "a@x.edu" _ after_signup_Basketball).
Defined.

(** X10: the fixture is idempotent and undoes every signup: resetting after
    a signup request gives the same store as resetting before it. *)
Theorem reset_forgets_signup (store : gmap string Activity) (activity_name email : string) :
  reset_activities (signup_for_activity activity_name email store).2
  = reset_activities store ∧
  reset_activities (reset_activities store) = reset_activities store.
Proof.
  split.
  - destruct (lookup_cases store activity_name email) as [Hn|a Hs Hin|a Hs Hout].
    + by rewrite signup_unknown.
    + by rewrite (signup_duplicate _ _ _ a).
    + rewrite (signup_fresh _ _ _ a) by done. simpl. unfold reset_activities.
      rewrite fmap_insert. apply insert_id. by rewrite lookup_fmap, Hs.
  - unfold reset_activities. rewrite <-map_fmap_compose. by apply map_fmap_ext.
Qed.

(** ** Requests that only read *)

(** X11: requests to [/] and [/activities] can be dropped from any sequence
    of requests without changing the store the sequence ends in. *)
Theorem GET_requests_irrelevant (rs : list Request) (store : gmap string Activity) :
  (run (filter (λ r, is_GET r = false) rs) store).2 = (run rs store).2.
Proof.
  revert store. induction rs as [|r rs IH]; intros store; [done |].
  rewrite filter_cons, (run_cons r). simpl snd.
  destruct r as [| |name e|name e]; simpl.
  - apply IH.
  - apply IH.
  - rewrite run_cons. apply IH.
  - rewrite run_cons. apply IH.
Qed.
